(** * Suzuki-Trotter expansion (qiskit/opflow/evolutions/trotterizations/suzuki.py)

    A shallow embedding of the class [Suzuki]: the recursive "bookends"
    expansion [_recursive_expansion] and its wrapper [convert].

    - Python [int] is [Z].
    - Python lists are Rocq lists; [list(reversed(l))] is [rev l], [l1 + l2]
      is [l1 ++ l2] and [n * l] is [list_mul n l].
    - Exceptions are an error monad [result].
    - [_recursive_expansion] recurses on an integer that it only ever
      decreases, so it need not terminate (order 0 recurses for ever).  The
      embedding takes the remaining call depth as [fuel]; CPython raises
      [RecursionError] when its call depth is used up, and so does the model.
    - The operator algebra (scalars, operators, [exp_i], [reduce]) lives in
      other modules of the package; it is an interface here
      ([FloatArith], [OperatorLibrary]). *)

From Stdlib Require Import ZArith String List Bool Lia.
From Stdlib Require Import PrimFloat SpecFloat FloatOps.
From Stdlib Require Import Reals Lra.
Import ListNotations.

Local Open Scope Z_scope.

(** ** Exceptions *)

Inductive exn : Type :=
| TypeError (msg : string)
| ValueError (msg : string)
| UnboundLocalError
| RecursionError.

Inductive result (A : Type) : Type :=
| Ok (a : A)
| Raise (e : exn).

Arguments Ok {A} a.
Arguments Raise {A} e.

Definition bind {A B : Type} (m : result A) (k : A -> result B) : result B :=
  match m with
  | Ok a => k a
  | Raise e => Raise e
  end.

Notation "x <- m ;; k" := (bind m (fun x => k))
  (at level 61, m at next level, right associativity).

Definition is_TypeError {A : Type} (r : result A) : bool :=
  match r with
  | Raise (TypeError _) => true
  | _ => false
  end.

Definition is_ValueError {A : Type} (r : result A) : bool :=
  match r with
  | Raise (ValueError _) => true
  | _ => false
  end.

(** ** Python list repetition: [n * l] *)

Definition list_mul {A : Type} (n : Z) (l : list A) : list A :=
  List.concat (repeat l (Z.to_nat n)).

(** ** The consumed interface *)

(** Python float arithmetic, as used to compute [p_k].  Every operation is
    named after the operand types it is applied to in the source. *)
Class FloatArith : Type := {
  float : Type;
  int_truediv : Z -> Z -> float;          (* int / int *)
  int_pow_float : Z -> float -> float;    (* int ** float *)
  int_sub_float : Z -> float -> float;    (* int - float *)
  int_mul_float : Z -> float -> float;    (* int * float *)
  float_pow_int : float -> Z -> float     (* float ** int *)
}.

(** A composed sequence of factors, [ComposedOp(oplist)]. *)
Inductive ComposedSequence (F : Type) : Type :=
| ComposedOp (oplist : list F).

Arguments ComposedOp {F} oplist.

Definition oplist {F : Type} (c : ComposedSequence F) : list F :=
  match c with
  | ComposedOp l => l
  end.

(** Modelled from the spec: [ComposedOp.power] is defined outside the source
    file.  The spec gives it as "repeated self-composition n times, preserving
    order, concatenation semantics". *)
Definition power {F : Type} (c : ComposedSequence F) (exponent : Z)
  : ComposedSequence F :=
  ComposedOp (list_mul exponent (oplist c)).

(** The operator library: the evolution time [scalar], the operators [op] of
    an [op_list], the exponentiated factors [PrimitiveOp], every operand that
    is neither a [SummedOp] nor a [PauliSumOp] ([other]), and [reduce], which
    is opaque. *)
Class OperatorLibrary (FA : FloatArith) : Type := {
  scalar : Type;
  scalar_div_int : scalar -> Z -> scalar;       (* evo_time / reps *)
  scalar_mul_float : scalar -> float -> scalar; (* evo_time * p_k *)
  op : Type;
  op_mul : op -> scalar -> op;                  (* op * x *)
  PrimitiveOp : Type;
  exp_i : op -> PrimitiveOp;                    (* op.exp_i() *)
  other : Type;
  reduce : ComposedSequence PrimitiveOp -> ComposedSequence PrimitiveOp
}.

(** ** The class [Suzuki] *)

Module Suzuki.

(** [self]: [_reps] is set by the base class, [_order] by [__init__]. *)
Record t : Type := Build {
  reps : Z;
  order : Z
}.

(** [__init__(self, reps = 1, order = 2)]. *)
Definition __init__ (reps order : option Z) : t :=
  {| reps := match reps with Some r => r | None => 1 end;
     order := match order with Some k => k | None => 2 end |}.

(** The [order] setter. *)
Definition set_order (self : t) (order : Z) : t :=
  {| reps := reps self; order := order |}.

Section Expansion.

Context {FA : FloatArith} {lib : OperatorLibrary FA}.

(** [p_k = (4 - 4 ** (1 / (2 * expansion_order - 1))) ** -1] *)
Definition p_k (expansion_order : Z) : float :=
  float_pow_int
    (int_sub_float 4 (int_pow_float 4 (int_truediv 1 (2 * expansion_order - 1))))
    (-1).

Fixpoint _recursive_expansion (fuel : nat) (op_list : list op)
  (evo_time : scalar) (expansion_order reps : Z) {struct fuel}
  : result (list PrimitiveOp) :=
  match fuel with
  | O => Raise RecursionError
  | S fuel =>
    if expansion_order =? 1 then
      Ok (map (fun op => exp_i (op_mul op (scalar_div_int evo_time reps))) op_list)
    else if expansion_order =? 2 then
      half <- _recursive_expansion fuel op_list (scalar_div_int evo_time 2)
                (expansion_order - 1) reps ;;
      Ok (rev half ++ half)
    else
      let p_k := p_k expansion_order in
      s <- _recursive_expansion fuel op_list (scalar_mul_float evo_time p_k)
             (expansion_order - 2) reps ;;
      let side := list_mul 2 s in
      middle <- _recursive_expansion fuel op_list
                  (scalar_mul_float evo_time (int_sub_float 1 (int_mul_float 4 p_k)))
                  (expansion_order - 2) reps ;;
      Ok ((side ++ middle) ++ side)
  end.

(** The operands [convert] can be given.  A [PauliSumOp] is passed to
    [_recursive_expansion] as the [op_list] itself; iterating over it yields
    its terms. *)
Inductive OperatorBase : Type :=
| SummedOp (oplist : list op) (coeff : scalar)
| PauliSumOp (terms : list op) (coeff : scalar)
| OtherOp (o : other).

Definition isinstance_SummedOp (operator : OperatorBase) : bool :=
  match operator with
  | SummedOp _ _ => true
  | _ => false
  end.

Definition isinstance_PauliSumOp (operator : OperatorBase) : bool :=
  match operator with
  | PauliSumOp _ _ => true
  | _ => false
  end.

(** [convert].  The local variable [comp_list] is unbound until one of the
    two [if] statements assigns it. *)
Definition convert (fuel : nat) (self : t) (operator : OperatorBase)
  : result (ComposedSequence PrimitiveOp) :=
  if negb (isinstance_SummedOp operator || isinstance_PauliSumOp operator) then
    Raise (TypeError "Trotterization converters can only convert SummedOp or PauliSumOp.")
  else
    comp_list <- match operator with
                 | PauliSumOp terms coeff =>
                     l <- _recursive_expansion fuel terms coeff (order self) (reps self) ;;
                     Ok (Some l)
                 | _ => Ok None
                 end ;;
    comp_list <- match operator with
                 | SummedOp oplist coeff =>
                     l <- _recursive_expansion fuel oplist coeff (order self) (reps self) ;;
                     Ok (Some l)
                 | _ => Ok comp_list
                 end ;;
    match comp_list with
    | None => Raise UnboundLocalError
    | Some comp_list =>
        let single_rep := ComposedOp comp_list in
        let full_evo := power single_rep (reps self) in
        Ok (reduce full_evo)
    end.

End Expansion.

End Suzuki.

(** Call depth that [_recursive_expansion] needs at a given order: order 1
    returns at once, order 2 calls order 1, every other order [k] calls
    order [k - 2]. *)
Definition depth (expansion_order : Z) : nat :=
  Z.to_nat (expansion_order / 2 + 1).

(** ** Interpretations of the interface *)

(** The float operations read over the real numbers. *)
Module RealArith.

#[export] Instance arith : FloatArith := {|
  float := R;
  int_truediv := fun a b => (IZR a / IZR b)%R;
  int_pow_float := fun a x => Rpower (IZR a) x;
  int_sub_float := fun a x => (IZR a - x)%R;
  int_mul_float := fun a x => (IZR a * x)%R;
  float_pow_int := fun x n => powerRZ x n
|}.

End RealArith.

(** Binary64 arithmetic on Pauli terms.  A number is a binary64 value, or a
    term that is left unevaluated because it goes through the C library's
    [pow], which IEEE 754 does not fix. *)
Module Binary64.

Inductive num : Type :=
| Lit (x : PrimFloat.float)
| Pow (a b : num)
| Sub (a b : num)
| Mul (a b : num)
| Div (a b : num).

(** Conversion of a Python int, rounding to nearest even. *)
Definition of_int (z : Z) : num :=
  Lit (FloatOps.SF2Prim (SpecFloat.binary_normalize FloatOps.prec FloatOps.emax z 0 false)).

Definition sub (a b : num) : num :=
  match a, b with
  | Lit x, Lit y => Lit (PrimFloat.sub x y)
  | _, _ => Sub a b
  end.

Definition mul (a b : num) : num :=
  match a, b with
  | Lit x, Lit y => Lit (PrimFloat.mul x y)
  | _, _ => Mul a b
  end.

Definition div (a b : num) : num :=
  match a, b with
  | Lit x, Lit y => Lit (PrimFloat.div x y)
  | _, _ => Div a b
  end.

#[export] Instance arith : FloatArith := {|
  float := num;
  int_truediv := fun a b => div (of_int a) (of_int b);
  int_pow_float := fun a x => Pow (of_int a) x;
  int_sub_float := fun a x => sub (of_int a) x;
  int_mul_float := fun a x => mul (of_int a) x;
  float_pow_int := fun x n => Pow x (of_int n)
|}.

Inductive Pauli : Type := PauliI | PauliX | PauliY | PauliZ.

(** A weighted generator [w * G], and such a term scaled by a number. *)
Inductive term : Type :=
| Term (weight : num) (generator : Pauli)
| Scaled (o : term) (x : num).

(** [exp(i * o)]. *)
Inductive factor : Type :=
| ExpI (o : term).

(** [reduce] of this library simplifies nothing. *)
#[export] Instance library : OperatorLibrary arith := {|
  scalar := num;
  scalar_div_int := fun t n => div t (of_int n);
  scalar_mul_float := fun t x => mul t x;
  op := term;
  op_mul := Scaled;
  PrimitiveOp := factor;
  exp_i := ExpI;
  other := term;
  reduce := fun c => c
|}.

Definition X1 : term := Term (Lit 1%float) PauliX.
Definition Z1 : term := Term (Lit 1%float) PauliZ.

End Binary64.

(** The operator library read over the real numbers: an operator is a
    generator with a real coefficient, [op * x] multiplies the coefficient by
    [x], and [exp_i] keeps the generator and the coefficient of its exponent. *)
Module RealOps.

Section Generators.

Variable G : Type.

Definition library : OperatorLibrary RealArith.arith := {|
  scalar := R;
  scalar_div_int := fun t n => (t / IZR n)%R;
  scalar_mul_float := fun (t : R) (x : @float RealArith.arith) => (t * (x : R))%R;
  op := (G * R)%type;
  op_mul := fun o x => (fst o, (snd o * x)%R);
  PrimitiveOp := (G * R)%type;
  exp_i := fun o => o;
  other := unit;
  reduce := fun c => c
|}.

(** The coefficients of a list added up, each generator weighted by [phi]. *)
Definition total (phi : G -> R) (l : list (G * R)) : R :=
  fold_right (fun o acc => (phi (fst o) * snd o + acc)%R) 0%R l.

End Generators.

End RealOps.

(** The two lists the recursion is built from: the list of the base case
    (order 1) at time [s], and the list of order 2 at time [s]. *)
Section Steps.

Context {FA : FloatArith} {lib : OperatorLibrary FA}.

Definition trotter_step (op_list : list op) (reps : Z) (s : scalar)
  : list PrimitiveOp :=
  map (fun op => exp_i (op_mul op (scalar_div_int s reps))) op_list.

Definition strang_step (op_list : list op) (reps : Z) (s : scalar)
  : list PrimitiveOp :=
  rev (trotter_step op_list reps (scalar_div_int s 2))
  ++ trotter_step op_list reps (scalar_div_int s 2).

End Steps.

Import Suzuki.

(** ** Properties of the expansion *)

Lemma list_mul_2 {A : Type} (l : list A) : list_mul 2 l = l ++ l.
Proof.
  unfold list_mul. simpl. now rewrite app_nil_r.
Qed.

Lemma list_mul_nonneg {A : Type} (n : Z) (l : list A) :
  0 <= n -> length (list_mul n l) = (Z.to_nat n * length l)%nat.
Proof.
  intros _. unfold list_mul.
  induction (Z.to_nat n) as [|m IH]; simpl; [reflexivity|].
  now rewrite length_app, IH.
Qed.

Lemma depth_1 : depth 1 = 1%nat.
Proof. reflexivity. Qed.

Lemma depth_2 : depth 2 = 2%nat.
Proof. reflexivity. Qed.

Lemma depth_step (k : Z) : 3 <= k -> depth k = S (depth (k - 2)).
Proof.
  intros Hk. unfold depth.
  replace (k / 2 + 1) with (Z.succ ((k - 2) / 2 + 1)).
  - rewrite Z2Nat.inj_succ; [reflexivity|].
    assert (0 <= (k - 2) / 2) by (apply Z.div_pos; lia). lia.
  - replace k with ((k - 2) + 1 * 2) at 2 by lia.
    rewrite Z.div_add by lia. lia.
Qed.

Lemma depth_pos (k : Z) : 1 <= k -> (1 <= depth k)%nat.
Proof.
  intros Hk. unfold depth.
  assert (0 <= k / 2) by (apply Z.div_pos; lia). lia.
Qed.

Section Properties.

Context {FA : FloatArith} {lib : OperatorLibrary FA}.

Implicit Types (op_list : list op) (evo_time : scalar) (k reps : Z).

Lemma expansion_1 fuel op_list evo_time reps :
  _recursive_expansion (S fuel) op_list evo_time 1 reps
  = Ok (map (fun op => exp_i (op_mul op (scalar_div_int evo_time reps))) op_list).
Proof. reflexivity. Qed.

Lemma expansion_2 fuel op_list evo_time reps :
  _recursive_expansion (S fuel) op_list evo_time 2 reps
  = (half <- _recursive_expansion fuel op_list (scalar_div_int evo_time 2) 1 reps ;;
     Ok (rev half ++ half)).
Proof. reflexivity. Qed.

Lemma expansion_step fuel op_list evo_time k reps :
  k <> 1 -> k <> 2 ->
  _recursive_expansion (S fuel) op_list evo_time k reps
  = (s <- _recursive_expansion fuel op_list
            (scalar_mul_float evo_time (p_k k)) (k - 2) reps ;;
     middle <- _recursive_expansion fuel op_list
            (scalar_mul_float evo_time (int_sub_float 1 (int_mul_float 4 (p_k k))))
            (k - 2) reps ;;
     Ok ((list_mul 2 s ++ middle) ++ list_mul 2 s)).
Proof.
  intros H1 H2. simpl.
  destruct (Z.eqb_spec k 1) as [->|_]; [contradiction|].
  destruct (Z.eqb_spec k 2) as [->|_]; [contradiction|].
  reflexivity.
Qed.

(** With call depth [depth k] an order [k >= 1] returns a list. *)
Lemma expansion_total fuel : forall op_list evo_time k reps,
  1 <= k -> (depth k <= fuel)%nat ->
  exists l, _recursive_expansion fuel op_list evo_time k reps = Ok l.
Proof.
  induction fuel as [|fuel IH]; intros op_list evo_time k reps Hk Hd.
  - pose proof (depth_pos k Hk). lia.
  - destruct (Z.eq_dec k 1) as [->|N1].
    { rewrite expansion_1. eauto. }
    destruct (Z.eq_dec k 2) as [->|N2].
    { rewrite expansion_2.
      destruct (IH op_list (scalar_div_int evo_time 2) 1 reps) as [h Hh];
        [lia | rewrite depth_2 in Hd; rewrite depth_1; lia |].
      rewrite Hh. simpl. eauto. }
    rewrite expansion_step by assumption.
    rewrite depth_step in Hd by lia.
    destruct (IH op_list (scalar_mul_float evo_time (p_k k)) (k - 2) reps)
      as [s Hs]; [lia | lia |].
    destruct (IH op_list
                (scalar_mul_float evo_time (int_sub_float 1 (int_mul_float 4 (p_k k))))
                (k - 2) reps) as [m Hm]; [lia | lia |].
    rewrite Hs, Hm. simpl. eauto.
Qed.

(** A result does not depend on the call depth left over. *)
Lemma expansion_fuel_mono fuel : forall fuel' op_list evo_time k reps l,
  _recursive_expansion fuel op_list evo_time k reps = Ok l ->
  (fuel <= fuel')%nat ->
  _recursive_expansion fuel' op_list evo_time k reps = Ok l.
Proof.
  induction fuel as [|fuel IH]; intros fuel' op_list evo_time k reps l H Hle.
  - discriminate.
  - destruct fuel' as [|fuel']; [lia|].
    destruct (Z.eq_dec k 1) as [->|N1].
    { now rewrite expansion_1 in *. }
    destruct (Z.eq_dec k 2) as [->|N2].
    { rewrite expansion_2 in *.
      destruct (_recursive_expansion fuel op_list (scalar_div_int evo_time 2) 1 reps)
        as [h|e] eqn:Hh; [|discriminate].
      rewrite (IH fuel' _ _ _ _ _ Hh) by lia. exact H. }
    rewrite expansion_step in * by assumption.
    destruct (_recursive_expansion fuel op_list (scalar_mul_float evo_time (p_k k))
                (k - 2) reps) as [s|e] eqn:Hs; [|discriminate].
    simpl in H.
    destruct (_recursive_expansion fuel op_list
                (scalar_mul_float evo_time (int_sub_float 1 (int_mul_float 4 (p_k k))))
                (k - 2) reps) as [m|e] eqn:Hm; [|discriminate].
    rewrite (IH fuel' _ _ _ _ _ Hs) by lia. simpl.
    rewrite (IH fuel' _ _ _ _ _ Hm) by lia. exact H.
Qed.

Lemma expansion_fuel_indep fuel fuel' op_list evo_time k reps l l' :
  _recursive_expansion fuel op_list evo_time k reps = Ok l ->
  _recursive_expansion fuel' op_list evo_time k reps = Ok l' ->
  l = l'.
Proof.
  intros H H'.
  destruct (Nat.le_ge_cases fuel fuel') as [Hle|Hle].
  - rewrite (expansion_fuel_mono _ _ _ _ _ _ _ H Hle) in H'. congruence.
  - rewrite (expansion_fuel_mono _ _ _ _ _ _ _ H' Hle) in H. congruence.
Qed.

(** The only failure of the recursion is running out of call depth. *)
Lemma expansion_raises fuel : forall op_list evo_time k reps e,
  _recursive_expansion fuel op_list evo_time k reps = Raise e ->
  e = RecursionError.
Proof.
  induction fuel as [|fuel IH]; intros op_list evo_time k reps e H.
  - simpl in H. congruence.
  - destruct (Z.eq_dec k 1) as [->|N1].
    { rewrite expansion_1 in H. discriminate. }
    destruct (Z.eq_dec k 2) as [->|N2].
    { rewrite expansion_2 in H.
      destruct (_recursive_expansion fuel op_list (scalar_div_int evo_time 2) 1 reps)
        as [h|e'] eqn:Hh; simpl in H; [discriminate|].
      injection H as <-. eapply IH, Hh. }
    rewrite expansion_step in H by assumption.
    destruct (_recursive_expansion fuel op_list (scalar_mul_float evo_time (p_k k))
                (k - 2) reps) as [s|e'] eqn:Hs; simpl in H.
    + destruct (_recursive_expansion fuel op_list
                  (scalar_mul_float evo_time (int_sub_float 1 (int_mul_float 4 (p_k k))))
                  (k - 2) reps) as [m|e''] eqn:Hm; simpl in H; [discriminate|].
      injection H as <-. eapply IH, Hm.
    + injection H as <-. eapply IH, Hs.
Qed.

(** An order below 1 never reaches a base case. *)
Lemma expansion_diverges fuel : forall op_list evo_time k reps,
  k <= 0 ->
  _recursive_expansion fuel op_list evo_time k reps = Raise RecursionError.
Proof.
  induction fuel as [|fuel IH]; intros op_list evo_time k reps Hk.
  - reflexivity.
  - rewrite expansion_step by lia.
    rewrite IH by lia. reflexivity.
Qed.

(** Number of factors: every level above the base multiplies it by 5, and
    an even order starts from the doubled list of order 2. *)
Lemma expansion_length fuel : forall op_list evo_time k reps l,
  1 <= k ->
  _recursive_expansion fuel op_list evo_time k reps = Ok l ->
  Z.of_nat (length l)
  = (if Z.even k then 2 else 1) * Z.of_nat (length op_list) * 5 ^ ((k - 1) / 2).
Proof.
  induction fuel as [|fuel IH]; intros op_list evo_time k reps l Hk H.
  - discriminate.
  - destruct (Z.eq_dec k 1) as [->|N1].
    { rewrite expansion_1 in H. injection H as <-.
      rewrite length_map.
      change (Z.even 1) with false. change (5 ^ ((1 - 1) / 2)) with 1. lia. }
    destruct (Z.eq_dec k 2) as [->|N2].
    { rewrite expansion_2 in H.
      destruct (_recursive_expansion fuel op_list (scalar_div_int evo_time 2) 1 reps)
        as [h|e] eqn:Hh; [|discriminate].
      injection H as <-.
      apply IH in Hh; [|lia].
      change (Z.even 1) with false in Hh. change (5 ^ ((1 - 1) / 2)) with 1 in Hh.
      change (Z.even 2) with true. change (5 ^ ((2 - 1) / 2)) with 1.
      rewrite length_app, length_rev. lia. }
    rewrite expansion_step in H by assumption.
    destruct (_recursive_expansion fuel op_list (scalar_mul_float evo_time (p_k k))
                (k - 2) reps) as [s|e] eqn:Hs; [|discriminate].
    simpl in H.
    destruct (_recursive_expansion fuel op_list
                (scalar_mul_float evo_time (int_sub_float 1 (int_mul_float 4 (p_k k))))
                (k - 2) reps) as [m|e] eqn:Hm; [|discriminate].
    injection H as <-.
    apply IH in Hs; [|lia]. apply IH in Hm; [|lia].
    rewrite list_mul_2, !length_app.
    replace (Z.even (k - 2)) with (Z.even k) in Hs, Hm
      by (rewrite Z.even_sub; simpl; now destruct (Z.even k)).
    replace ((k - 1) / 2) with (Z.succ ((k - 2 - 1) / 2)).
    + rewrite Z.pow_succ_r by (apply Z.div_pos; lia).
      lia.
    + replace (k - 1) with ((k - 2 - 1) + 1 * 2) by lia.
      rewrite Z.div_add by lia. lia.
Qed.

(** An expansion of even order reads the same in both directions. *)
Lemma expansion_palindrome fuel : forall op_list evo_time k reps l,
  Z.even k = true -> 2 <= k ->
  _recursive_expansion fuel op_list evo_time k reps = Ok l ->
  rev l = l.
Proof.
  induction fuel as [|fuel IH]; intros op_list evo_time k reps l Hev Hk H.
  - discriminate.
  - destruct (Z.eq_dec k 2) as [->|N2].
    { rewrite expansion_2 in H.
      destruct (_recursive_expansion fuel op_list (scalar_div_int evo_time 2) 1 reps)
        as [h|e] eqn:Hh; [|discriminate].
      injection H as <-.
      now rewrite rev_app_distr, rev_involutive. }
    assert (k <> 3) by (intros ->; discriminate).
    rewrite expansion_step in H by lia.
    destruct (_recursive_expansion fuel op_list (scalar_mul_float evo_time (p_k k))
                (k - 2) reps) as [s|e] eqn:Hs; [|discriminate].
    simpl in H.
    destruct (_recursive_expansion fuel op_list
                (scalar_mul_float evo_time (int_sub_float 1 (int_mul_float 4 (p_k k))))
                (k - 2) reps) as [m|e] eqn:Hm; [|discriminate].
    injection H as <-.
    assert (Hev' : Z.even (k - 2) = true)
      by (rewrite Z.even_sub, Hev; reflexivity).
    apply IH in Hs; [|assumption|lia]. apply IH in Hm; [|assumption|lia].
    rewrite list_mul_2, !rev_app_distr, Hs, Hm, <- !app_assoc.
    reflexivity.
Qed.

(** What [convert] does with an admissible operand. *)
Lemma convert_SummedOp fuel (self : t) op_list (coeff : scalar) :
  convert fuel self (SummedOp op_list coeff)
  = (slice <- _recursive_expansion fuel op_list coeff (order self) (reps self) ;;
     Ok (reduce (power (ComposedOp slice) (reps self)))).
Proof.
  unfold convert. simpl.
  now destruct (_recursive_expansion fuel op_list coeff (order self) (reps self)).
Qed.

Lemma convert_PauliSumOp fuel (self : t) op_list (coeff : scalar) :
  convert fuel self (PauliSumOp op_list coeff)
  = (slice <- _recursive_expansion fuel op_list coeff (order self) (reps self) ;;
     Ok (reduce (power (ComposedOp slice) (reps self)))).
Proof.
  unfold convert. simpl.
  now destruct (_recursive_expansion fuel op_list coeff (order self) (reps self)).
Qed.


End Properties.

(** The real number that [p_k] stands for. *)
Lemma p_k_real (k : Z) :
  p_k (FA := RealArith.arith) k = (1 / (4 - Rpower 4 (1 / IZR (2 * k - 1))))%R.
Proof.
  unfold p_k. simpl. unfold Rdiv.
  now rewrite Rmult_1_r, !Rmult_1_l.
Qed.

(** ** The claims *)

Import Binary64.

(** C1.  For a non-empty term list, reps >= 1 and an even order k > 2, the
    expansion is the five-block list side ++ side ++ middle ++ side ++ side,
    where side is the expansion of order k - 2 at time t * p_k and middle the
    expansion of order k - 2 at time t * (1 - 4 * p_k); side ++ side is the
    list concatenated with itself.  Read over the real numbers, p_k is
    1 / (4 - 4^(1/(2k-1))). *)
Theorem five_block_recursion :
  (forall (FA : FloatArith) (lib : OperatorLibrary FA) (fuel : nat)
          (op_list : list op) (evo_time : scalar) (k reps : Z),
      op_list <> [] -> 1 <= reps -> Z.even k = true -> 2 < k ->
      (depth k <= fuel)%nat ->
      exists side middle : list PrimitiveOp,
        _recursive_expansion fuel op_list
          (scalar_mul_float evo_time (p_k k)) (k - 2) reps = Ok side
        /\ _recursive_expansion fuel op_list
             (scalar_mul_float evo_time (int_sub_float 1 (int_mul_float 4 (p_k k))))
             (k - 2) reps = Ok middle
        /\ _recursive_expansion fuel op_list evo_time k reps
           = Ok (side ++ side ++ middle ++ side ++ side))
  /\ (forall k : Z,
        p_k (FA := RealArith.arith) k
        = (1 / (4 - Rpower 4 (1 / IZR (2 * k - 1))))%R).
Proof.
  split; [|exact p_k_real].
  intros FA lib fuel op_list evo_time k reps _ _ Hev Hk Hd.
  destruct fuel as [|fuel]; [rewrite depth_step in Hd by lia; exfalso; lia|].
  rewrite depth_step in Hd by lia.
  destruct (expansion_total fuel op_list (scalar_mul_float evo_time (p_k k))
              (k - 2) reps) as [side Hs]; [lia | lia |].
  destruct (expansion_total fuel op_list
              (scalar_mul_float evo_time (int_sub_float 1 (int_mul_float 4 (p_k k))))
              (k - 2) reps) as [middle Hm]; [lia | lia |].
  exists side, middle.
  split; [apply (expansion_fuel_mono fuel); [exact Hs | lia]|].
  split; [apply (expansion_fuel_mono fuel); [exact Hm | lia]|].
  rewrite (expansion_step fuel op_list evo_time k reps) by lia.
  rewrite Hs, Hm. simpl.
  now rewrite list_mul_2, <- !app_assoc.
Qed.

Lemma five_block_recursion_witness :
  [X1; Z1] <> [] /\ 1 <= 1 /\ Z.even 4 = true /\ 2 < 4 /\ (depth 4 <= 3)%nat
  /\ exists side middle : list factor,
       _recursive_expansion (lib := library) 3 [X1; Z1]
         (mul (Lit 2) (p_k 4)) (4 - 2) 1 = Ok side
       /\ _recursive_expansion (lib := library) 3 [X1; Z1]
            (mul (Lit 2) (sub (of_int 1) (mul (of_int 4) (p_k 4)))) (4 - 2) 1
          = Ok middle
       /\ _recursive_expansion (lib := library) 3 [X1; Z1] (Lit 2) 4 1
          = Ok (side ++ side ++ middle ++ side ++ side).
Proof.
  assert (H1 : [X1; Z1] <> []) by discriminate.
  assert (H2 : 1 <= 1) by lia.
  assert (H3 : Z.even 4 = true) by reflexivity.
  assert (H4 : 2 < 4) by lia.
  assert (H5 : (depth 4 <= 3)%nat) by (vm_compute; lia).
  refine (conj H1 (conj H2 (conj H3 (conj H4 (conj H5 _))))).
  exact (proj1 five_block_recursion arith library 3%nat [X1; Z1] (Lit 2) 4 1
           H1 H2 H3 H4 H5).
Defined.

(** C2.  For a non-empty term list and reps >= 1, the expansion of order 2 is
    reverse(half) ++ half, where half is the expansion of order 1 at time t/2.
    For the terms [(1.0, X), (1.0, Z)], coefficient 2.0, order 2 and reps 1 it
    is [exp(i 1.0 Z 1.0), exp(i 1.0 X 1.0), exp(i 1.0 X 1.0), exp(i 1.0 Z 1.0)]. *)
Theorem second_order_reverse_half :
  (forall (FA : FloatArith) (lib : OperatorLibrary FA) (fuel : nat)
          (op_list : list op) (evo_time : scalar) (reps : Z),
      op_list <> [] -> 1 <= reps -> (depth 2 <= fuel)%nat ->
      exists half : list PrimitiveOp,
        _recursive_expansion fuel op_list (scalar_div_int evo_time 2) 1 reps = Ok half
        /\ _recursive_expansion fuel op_list evo_time 2 reps = Ok (rev half ++ half))
  /\ (forall fuel : nat,
        _recursive_expansion (lib := library) (S (S fuel)) [X1; Z1] (Lit 2) 2 1
        = Ok [ExpI (Scaled Z1 (Lit 1)); ExpI (Scaled X1 (Lit 1));
              ExpI (Scaled X1 (Lit 1)); ExpI (Scaled Z1 (Lit 1))]).
Proof.
  split.
  - intros FA lib fuel op_list evo_time reps _ _ Hd.
    rewrite depth_2 in Hd.
    destruct fuel as [|[|fuel]]; [lia | lia |].
    exists (map (fun op => exp_i (op_mul op (scalar_div_int (scalar_div_int evo_time 2) reps)))
              op_list).
    split; [apply expansion_1|].
    rewrite expansion_2, expansion_1. reflexivity.
  - intros fuel. rewrite expansion_2, expansion_1. reflexivity.
Qed.

Lemma second_order_reverse_half_witness :
  [X1; Z1] <> [] /\ 1 <= 1 /\ (depth 2 <= 2)%nat
  /\ exists half : list factor,
       _recursive_expansion (lib := library) 2 [X1; Z1] (div (Lit 2) (of_int 2)) 1 1
       = Ok half
       /\ _recursive_expansion (lib := library) 2 [X1; Z1] (Lit 2) 2 1
          = Ok (rev half ++ half).
Proof.
  assert (H1 : [X1; Z1] <> []) by discriminate.
  assert (H2 : 1 <= 1) by lia.
  assert (H3 : (depth 2 <= 2)%nat) by (vm_compute; lia).
  refine (conj H1 (conj H2 (conj H3 _))).
  exact (proj1 second_order_reverse_half arith library 2%nat [X1; Z1] (Lit 2) 1
           H1 H2 H3).
Defined.

(** C3.  For a non-empty term list and reps >= 1, the expansion of order 1 is
    one factor exp(i (w_i G_i) t / r) per term, in the order of the terms.  For
    the terms [(1.0, X), (1.0, Z)], coefficient 2.0, order 1 and reps 1 it is
    [exp(i 1.0 X 2.0), exp(i 1.0 Z 2.0)]. *)
Theorem first_order_in_term_order :
  (forall (FA : FloatArith) (lib : OperatorLibrary FA) (fuel : nat)
          (op_list : list op) (evo_time : scalar) (reps : Z),
      op_list <> [] -> 1 <= reps -> (depth 1 <= fuel)%nat ->
      _recursive_expansion fuel op_list evo_time 1 reps
      = Ok (map (fun op => exp_i (op_mul op (scalar_div_int evo_time reps))) op_list))
  /\ (forall fuel : nat,
        _recursive_expansion (lib := library) (S fuel) [X1; Z1] (Lit 2) 1 1
        = Ok [ExpI (Scaled X1 (Lit 2)); ExpI (Scaled Z1 (Lit 2))]).
Proof.
  split.
  - intros FA lib fuel op_list evo_time reps _ _ Hd.
    rewrite depth_1 in Hd.
    destruct fuel as [|fuel]; [lia|]. apply expansion_1.
  - intros fuel. rewrite expansion_1. reflexivity.
Qed.

Lemma first_order_in_term_order_witness :
  [X1; Z1] <> [] /\ 1 <= 1 /\ (depth 1 <= 1)%nat
  /\ _recursive_expansion (lib := library) 1 [X1; Z1] (Lit 2) 1 1
     = Ok (map (fun o => ExpI (Scaled o (div (Lit 2) (of_int 1)))) [X1; Z1]).
Proof.
  assert (H1 : [X1; Z1] <> []) by discriminate.
  assert (H2 : 1 <= 1) by lia.
  assert (H3 : (depth 1 <= 1)%nat) by (vm_compute; lia).
  refine (conj H1 (conj H2 (conj H3 _))).
  exact (proj1 first_order_in_term_order arith library 1%nat [X1; Z1] (Lit 2) 1
           H1 H2 H3).
Defined.

(** C4.  For an admissible operand, of either shape, [convert] builds one
    slice with [_recursive_expansion] from the operand's terms and
    coefficient, wraps it in a composed sequence, raises that to the power
    reps and returns the reduced result; the power is the slice concatenated
    reps times in order. *)
Theorem convert_pipeline :
  forall (FA : FloatArith) (lib : OperatorLibrary FA) (fuel : nat) (self : t)
         (op_list : list op) (coeff : scalar),
    convert fuel self (SummedOp op_list coeff)
    = (slice <- _recursive_expansion fuel op_list coeff (order self) (reps self) ;;
       Ok (reduce (power (ComposedOp slice) (reps self))))
    /\ convert fuel self (PauliSumOp op_list coeff)
       = (slice <- _recursive_expansion fuel op_list coeff (order self) (reps self) ;;
          Ok (reduce (power (ComposedOp slice) (reps self))))
    /\ (forall slice : list PrimitiveOp,
          oplist (power (ComposedOp slice) (reps self))
          = List.concat (repeat slice (Z.to_nat (reps self)))).
Proof.
  intros FA lib fuel self op_list coeff.
  split; [apply convert_SummedOp|].
  split; [apply convert_PauliSumOp|].
  reflexivity.
Qed.

(** Two repetitions of a first-order slice. *)
Example convert_two_reps :
  convert (lib := library) 1 {| reps := 2; order := 1 |} (SummedOp [X1; Z1] (Lit 2))
  = Ok (ComposedOp [ExpI (Scaled X1 (Lit 1)); ExpI (Scaled Z1 (Lit 1));
                    ExpI (Scaled X1 (Lit 1)); ExpI (Scaled Z1 (Lit 1))]).
Proof. reflexivity. Qed.

(** C5, as the code has it.  [convert] validates neither order nor reps and
    never fails with a [ValueError].  With an admissible operand and
    reps >= 1, every order >= 1, odd orders included, gives an expansion; with
    an order <= 0 no expansion is produced, because the recursion never
    reaches a base case and ends in a [RecursionError]. *)
Theorem convert_validates_nothing :
  (forall (FA : FloatArith) (lib : OperatorLibrary FA) (fuel : nat) (self : t)
          (operator : OperatorBase),
      is_ValueError (convert fuel self operator) = false)
  /\ (forall (FA : FloatArith) (lib : OperatorLibrary FA) (fuel : nat) (self : t)
             (operator : OperatorBase),
        isinstance_SummedOp operator || isinstance_PauliSumOp operator = true ->
        1 <= reps self -> 1 <= order self -> (depth (order self) <= fuel)%nat ->
        exists v, convert fuel self operator = Ok v)
  /\ (forall (FA : FloatArith) (lib : OperatorLibrary FA) (fuel : nat) (self : t)
             (operator : OperatorBase),
        isinstance_SummedOp operator || isinstance_PauliSumOp operator = true ->
        order self <= 0 ->
        convert fuel self operator = Raise RecursionError).
Proof.
  split; [|split].
  - intros FA lib fuel self [op_list coeff|op_list coeff|o].
    + rewrite convert_SummedOp.
      destruct (_recursive_expansion fuel op_list coeff (order self) (reps self))
        as [l|e] eqn:H; [reflexivity|].
      apply expansion_raises in H. now subst e.
    + rewrite convert_PauliSumOp.
      destruct (_recursive_expansion fuel op_list coeff (order self) (reps self))
        as [l|e] eqn:H; [reflexivity|].
      apply expansion_raises in H. now subst e.
    + reflexivity.
  - intros FA lib fuel self [op_list coeff|op_list coeff|o] Hop _ Hk Hd;
      [| |discriminate].
    + rewrite convert_SummedOp.
      destruct (expansion_total fuel op_list coeff (order self) (reps self) Hk Hd)
        as [l ->].
      simpl. eauto.
    + rewrite convert_PauliSumOp.
      destruct (expansion_total fuel op_list coeff (order self) (reps self) Hk Hd)
        as [l ->].
      simpl. eauto.
  - intros FA lib fuel self [op_list coeff|op_list coeff|o] Hop Hk;
      [| |discriminate].
    + rewrite convert_SummedOp, expansion_diverges by assumption. reflexivity.
    + rewrite convert_PauliSumOp, expansion_diverges by assumption. reflexivity.
Qed.

Lemma convert_validates_nothing_witness :
  isinstance_SummedOp (SummedOp (lib := library) [X1; Z1] (Lit 2))
  || isinstance_PauliSumOp (SummedOp (lib := library) [X1; Z1] (Lit 2)) = true
  /\ 1 <= reps {| reps := 1; order := 3 |}
  /\ 1 <= order {| reps := 1; order := 3 |}
  /\ (depth (order {| reps := 1; order := 3 |}) <= 2)%nat
  /\ exists v,
       convert (lib := library) 2 {| reps := 1; order := 3 |}
         (SummedOp [X1; Z1] (Lit 2)) = Ok v.
Proof.
  assert (H1 : isinstance_SummedOp (SummedOp (lib := library) [X1; Z1] (Lit 2))
               || isinstance_PauliSumOp (SummedOp (lib := library) [X1; Z1] (Lit 2))
               = true) by reflexivity.
  assert (H2 : 1 <= reps {| reps := 1; order := 3 |}) by (simpl; lia).
  assert (H3 : 1 <= order {| reps := 1; order := 3 |}) by (simpl; lia).
  assert (H4 : (depth (order {| reps := 1; order := 3 |}) <= 2)%nat)
    by (vm_compute; lia).
  refine (conj H1 (conj H2 (conj H3 (conj H4 _)))).
  exact (proj1 (proj2 convert_validates_nothing) arith library 2%nat
           {| reps := 1; order := 3 |} (SummedOp [X1; Z1] (Lit 2)) H1 H2 H3 H4).
Defined.

(** C5 as stated fails: order 3 is not rejected, it yields a slice of ten
    factors; order 0 fails, but with a [RecursionError]. *)
Lemma odd_order_not_rejected :
  is_ValueError (convert (lib := library) 2 {| reps := 1; order := 3 |}
                   (SummedOp [X1; Z1] (Lit 2))) = false
  /\ (exists v,
        convert (lib := library) 2 {| reps := 1; order := 3 |}
          (SummedOp [X1; Z1] (Lit 2)) = Ok v
        /\ length (oplist v) = 10%nat)
  /\ convert (lib := library) 1000 {| reps := 1; order := 0 |}
       (SummedOp [X1; Z1] (Lit 2)) = Raise RecursionError.
Proof.
  split; [vm_compute; reflexivity|].
  split; [|vm_compute; reflexivity].
  eexists. split; vm_compute; reflexivity.
Qed.

(** C6.  An operand that is neither a [SummedOp] nor a [PauliSumOp] makes
    [convert] fail with the [TypeError], whatever call depth is left (none at
    all included), so before any recursion; the two admissible shapes never
    fail that way when reps >= 1. *)
Theorem convert_rejects_other_shapes :
  (forall (FA : FloatArith) (lib : OperatorLibrary FA) (fuel : nat) (self : t)
          (operator : OperatorBase),
      isinstance_SummedOp operator || isinstance_PauliSumOp operator = false ->
      convert fuel self operator
      = Raise (TypeError "Trotterization converters can only convert SummedOp or PauliSumOp."))
  /\ (forall (FA : FloatArith) (lib : OperatorLibrary FA) (fuel : nat) (self : t)
             (operator : OperatorBase),
        isinstance_SummedOp operator || isinstance_PauliSumOp operator = true ->
        1 <= reps self ->
        is_TypeError (convert fuel self operator) = false).
Proof.
  split.
  - intros FA lib fuel self [op_list coeff|op_list coeff|o] Hop;
      [discriminate | discriminate | reflexivity].
  - intros FA lib fuel self [op_list coeff|op_list coeff|o] Hop _;
      [| |discriminate].
    + rewrite convert_SummedOp.
      destruct (_recursive_expansion fuel op_list coeff (order self) (reps self))
        as [l|e] eqn:H; [reflexivity|].
      apply expansion_raises in H. now subst e.
    + rewrite convert_PauliSumOp.
      destruct (_recursive_expansion fuel op_list coeff (order self) (reps self))
        as [l|e] eqn:H; [reflexivity|].
      apply expansion_raises in H. now subst e.
Qed.

Lemma convert_rejects_other_shapes_witness :
  isinstance_SummedOp (OtherOp (lib := library) X1)
  || isinstance_PauliSumOp (OtherOp (lib := library) X1) = false
  /\ convert (lib := library) 0 {| reps := 1; order := 2 |} (OtherOp X1)
     = Raise (TypeError "Trotterization converters can only convert SummedOp or PauliSumOp.").
Proof.
  assert (H1 : isinstance_SummedOp (OtherOp (lib := library) X1)
               || isinstance_PauliSumOp (OtherOp (lib := library) X1) = false)
    by reflexivity.
  refine (conj H1 _).
  exact (proj1 convert_rejects_other_shapes arith library 0%nat
           {| reps := 1; order := 2 |} (OtherOp X1) H1).
Defined.

(** C7.  For a non-empty list of n terms the slice of order 1 has n factors,
    and the slice of order 2 has twice as many factors as the slice of
    order 1 at half the time, that is 2n. *)
Theorem length_scaling :
  forall (FA : FloatArith) (lib : OperatorLibrary FA) (fuel : nat)
         (op_list : list op) (evo_time : scalar) (reps : Z),
    op_list <> [] -> 1 <= reps -> (depth 2 <= fuel)%nat ->
    exists first half second : list PrimitiveOp,
      _recursive_expansion fuel op_list evo_time 1 reps = Ok first
      /\ length first = length op_list
      /\ _recursive_expansion fuel op_list (scalar_div_int evo_time 2) 1 reps = Ok half
      /\ _recursive_expansion fuel op_list evo_time 2 reps = Ok second
      /\ length second = (2 * length half)%nat
      /\ length second = (2 * length op_list)%nat.
Proof.
  intros FA lib fuel op_list evo_time reps _ _ Hd.
  rewrite depth_2 in Hd.
  destruct fuel as [|[|fuel]]; [lia | lia |].
  eexists _, _, _.
  split; [apply expansion_1|].
  split; [apply length_map|].
  split; [apply expansion_1|].
  split; [rewrite expansion_2, expansion_1; reflexivity|].
  rewrite length_app, length_rev, length_map. lia.
Qed.

Lemma length_scaling_witness :
  [X1; Z1] <> [] /\ 1 <= 1 /\ (depth 2 <= 2)%nat
  /\ exists first half second : list factor,
       _recursive_expansion (lib := library) 2 [X1; Z1] (Lit 2) 1 1 = Ok first
       /\ length first = length [X1; Z1]
       /\ _recursive_expansion (lib := library) 2 [X1; Z1] (div (Lit 2) (of_int 2)) 1 1
          = Ok half
       /\ _recursive_expansion (lib := library) 2 [X1; Z1] (Lit 2) 2 1 = Ok second
       /\ length second = (2 * length half)%nat
       /\ length second = (2 * length [X1; Z1])%nat.
Proof.
  assert (H1 : [X1; Z1] <> []) by discriminate.
  assert (H2 : 1 <= 1) by lia.
  assert (H3 : (depth 2 <= 2)%nat) by (vm_compute; lia).
  refine (conj H1 (conj H2 (conj H3 _))).
  exact (length_scaling arith library 2%nat [X1; Z1] (Lit 2) 1 H1 H2 H3).
Defined.

(** C8.  On valid input (a non-empty term list, order 1 or an even order >= 2,
    reps >= 1) the recursion and [convert] are total and deterministic: there
    is one list that every run with enough call depth returns, no run returns
    another one, and a run that does not return it returns nothing at all. *)
Theorem expansion_deterministic_total :
  forall (FA : FloatArith) (lib : OperatorLibrary FA)
         (op_list : list op) (coeff : scalar) (k reps : Z),
    op_list <> [] -> k = 1 \/ (Z.even k = true /\ 2 <= k) -> 1 <= reps ->
    (exists l : list PrimitiveOp,
        (forall fuel, (depth k <= fuel)%nat ->
                      _recursive_expansion fuel op_list coeff k reps = Ok l)
        /\ (forall fuel,
               _recursive_expansion fuel op_list coeff k reps = Ok l
               \/ _recursive_expansion fuel op_list coeff k reps = Raise RecursionError))
    /\ (forall operator : OperatorBase,
          operator = SummedOp op_list coeff \/ operator = PauliSumOp op_list coeff ->
          exists v : ComposedSequence PrimitiveOp,
            (forall fuel, (depth k <= fuel)%nat ->
                          convert fuel {| reps := reps; order := k |} operator = Ok v)
            /\ (forall fuel,
                   convert fuel {| reps := reps; order := k |} operator = Ok v
                   \/ convert fuel {| reps := reps; order := k |} operator
                      = Raise RecursionError)).
Proof.
  intros FA lib op_list coeff k reps _ Hk _.
  assert (Hk1 : 1 <= k) by lia.
  destruct (expansion_total (depth k) op_list coeff k reps Hk1 (Nat.le_refl _))
    as [l Hl].
  assert (Hdet : forall fuel,
             _recursive_expansion fuel op_list coeff k reps = Ok l
             \/ _recursive_expansion fuel op_list coeff k reps = Raise RecursionError).
  { intros fuel.
    destruct (_recursive_expansion fuel op_list coeff k reps) as [l'|e] eqn:H.
    - left. f_equal. symmetry. eapply expansion_fuel_indep; eassumption.
    - right. f_equal. eapply expansion_raises, H. }
  split.
  - exists l. split; [|exact Hdet].
    intros fuel Hd. now apply (expansion_fuel_mono (depth k)).
  - intros operator Hop.
    exists (reduce (power (ComposedOp l) reps)).
    assert (Hc : forall fuel,
               convert fuel {| reps := reps; order := k |} operator
               = (slice <- _recursive_expansion fuel op_list coeff k reps ;;
                  Ok (reduce (power (ComposedOp slice) reps)))).
    { intros fuel. destruct Hop as [-> | ->].
      - apply convert_SummedOp.
      - apply convert_PauliSumOp. }
    split.
    + intros fuel Hd. rewrite Hc.
      rewrite (expansion_fuel_mono (depth k) fuel _ _ _ _ _ Hl Hd). reflexivity.
    + intros fuel. rewrite Hc.
      destruct (Hdet fuel) as [-> | ->]; [left | right]; reflexivity.
Qed.

Lemma expansion_deterministic_total_witness :
  [X1; Z1] <> [] /\ (4 = 1 \/ (Z.even 4 = true /\ 2 <= 4)) /\ 1 <= 2
  /\ (exists l : list factor,
         (forall fuel, (depth 4 <= fuel)%nat ->
                       _recursive_expansion (lib := library) fuel [X1; Z1] (Lit 2) 4 2
                       = Ok l)
         /\ (forall fuel,
                _recursive_expansion (lib := library) fuel [X1; Z1] (Lit 2) 4 2 = Ok l
                \/ _recursive_expansion (lib := library) fuel [X1; Z1] (Lit 2) 4 2
                   = Raise RecursionError))
  /\ (forall operator : OperatorBase,
         operator = SummedOp [X1; Z1] (Lit 2)
         \/ operator = PauliSumOp [X1; Z1] (Lit 2) ->
         exists v : ComposedSequence factor,
           (forall fuel, (depth 4 <= fuel)%nat ->
                         convert (lib := library) fuel {| reps := 2; order := 4 |} operator
                         = Ok v)
           /\ (forall fuel,
                  convert (lib := library) fuel {| reps := 2; order := 4 |} operator = Ok v
                  \/ convert (lib := library) fuel {| reps := 2; order := 4 |} operator
                     = Raise RecursionError)).
Proof.
  assert (H1 : [X1; Z1] <> []) by discriminate.
  assert (H2 : 4 = 1 \/ (Z.even 4 = true /\ 2 <= 4))
    by (right; split; [reflexivity | lia]).
  assert (H3 : 1 <= 2) by lia.
  refine (conj H1 (conj H2 (conj H3 _))).
  exact (expansion_deterministic_total arith library [X1; Z1] (Lit 2) 4 2 H1 H2 H3).
Defined.

(** C9.  For a non-empty term list, reps >= 1 and every even order k >= 2 the
    returned list is a palindrome: it equals its own reversal. *)
Theorem even_order_palindrome :
  forall (FA : FloatArith) (lib : OperatorLibrary FA) (fuel : nat)
         (op_list : list op) (evo_time : scalar) (k reps : Z),
    op_list <> [] -> 1 <= reps -> Z.even k = true -> 2 <= k ->
    (depth k <= fuel)%nat ->
    exists l : list PrimitiveOp,
      _recursive_expansion fuel op_list evo_time k reps = Ok l /\ rev l = l.
Proof.
  intros FA lib fuel op_list evo_time k reps _ _ Hev Hk Hd.
  destruct (expansion_total fuel op_list evo_time k reps) as [l Hl];
    [lia | exact Hd |].
  exists l. split; [exact Hl|].
  eapply expansion_palindrome; eassumption.
Qed.

Lemma even_order_palindrome_witness :
  [X1; Z1] <> [] /\ 1 <= 1 /\ Z.even 6 = true /\ 2 <= 6 /\ (depth 6 <= 4)%nat
  /\ exists l : list factor,
       _recursive_expansion (lib := library) 4 [X1; Z1] (Lit 2) 6 1 = Ok l
       /\ rev l = l.
Proof.
  assert (H1 : [X1; Z1] <> []) by discriminate.
  assert (H2 : 1 <= 1) by lia.
  assert (H3 : Z.even 6 = true) by reflexivity.
  assert (H4 : 2 <= 6) by lia.
  assert (H5 : (depth 6 <= 4)%nat) by (vm_compute; lia).
  refine (conj H1 (conj H2 (conj H3 (conj H4 (conj H5 _))))).
  exact (even_order_palindrome arith library 4%nat [X1; Z1] (Lit 2) 6 1
           H1 H2 H3 H4 H5).
Defined.

(** C10.  For every order k >= 1, odd orders included, every term list, every
    time and reps >= 1 the recursion returns a list once the call depth is
    [depth k]; for an even order and n terms the list has 2 n 5^(k/2 - 1)
    factors, for an odd order, which ends in the base case of order 1, it has
    n 5^((k-1)/2). *)
Theorem expansion_terminates_with_length :
  forall (FA : FloatArith) (lib : OperatorLibrary FA) (fuel : nat)
         (op_list : list op) (evo_time : scalar) (k reps : Z),
    1 <= k -> 1 <= reps -> (depth k <= fuel)%nat ->
    exists l : list PrimitiveOp,
      _recursive_expansion fuel op_list evo_time k reps = Ok l
      /\ (Z.even k = true ->
          Z.of_nat (length l) = 2 * Z.of_nat (length op_list) * 5 ^ (k / 2 - 1))
      /\ (Z.even k = false ->
          Z.of_nat (length l) = Z.of_nat (length op_list) * 5 ^ ((k - 1) / 2)).
Proof.
  intros FA lib fuel op_list evo_time k reps Hk _ Hd.
  destruct (expansion_total fuel op_list evo_time k reps Hk Hd) as [l Hl].
  exists l. split; [exact Hl|].
  pose proof (expansion_length fuel op_list evo_time k reps l Hk Hl) as Hlen.
  split; intros Hev; rewrite Hev in Hlen.
  - replace (k / 2 - 1) with ((k - 1) / 2); [exact Hlen|].
    apply Z.even_spec in Hev. destruct Hev as [m ->].
    replace (2 * m - 1) with (1 + (m - 1) * 2) by lia.
    replace (2 * m) with (0 + m * 2) by lia.
    rewrite !Z.div_add by lia. reflexivity.
  - lia.
Qed.

(** Order 4 on two terms: twenty factors. *)
Example fourth_order_length :
  exists l : list factor,
    _recursive_expansion (lib := library) 3 [X1; Z1] (Lit 2) 4 1 = Ok l
    /\ length l = 20%nat /\ rev l = l.
Proof.
  eexists. split; [vm_compute; reflexivity|].
  split; reflexivity.
Qed.

Lemma expansion_terminates_with_length_witness :
  1 <= 3 /\ 1 <= 1 /\ (depth 3 <= 2)%nat
  /\ exists l : list factor,
       _recursive_expansion (lib := library) 2 [X1; Z1] (Lit 2) 3 1 = Ok l
       /\ (Z.even 3 = true ->
           Z.of_nat (length l) = 2 * Z.of_nat (length [X1; Z1]) * 5 ^ (3 / 2 - 1))
       /\ (Z.even 3 = false ->
           Z.of_nat (length l) = Z.of_nat (length [X1; Z1]) * 5 ^ ((3 - 1) / 2)).
Proof.
  assert (H1 : 1 <= 3) by lia.
  assert (H2 : 1 <= 1) by lia.
  assert (H3 : (depth 3 <= 2)%nat) by (vm_compute; lia).
  refine (conj H1 (conj H2 (conj H3 _))).
  exact (expansion_terminates_with_length arith library 2%nat [X1; Z1] (Lit 2) 3 1
           H1 H2 H3).
Defined.

(** ** Further properties of the recursion *)

Section Recursion.

Context {FA : FloatArith} {lib : OperatorLibrary FA}.

Implicit Types (op_list : list op) (evo_time : scalar) (k reps : Z).



End Recursion.


(** X2.  With no terms at all, every order >= 1 returns the empty list. *)
Theorem expansion_of_no_terms :
  forall (FA : FloatArith) (lib : OperatorLibrary FA) (fuel : nat)
         (evo_time : scalar) (k reps : Z),
    1 <= k -> (depth k <= fuel)%nat ->
    _recursive_expansion fuel [] evo_time k reps = Ok [].
Proof.
  intros FA lib fuel evo_time k reps Hk Hd.
  destruct (expansion_total fuel [] evo_time k reps Hk Hd) as [l Hl].
  rewrite Hl. f_equal.
  apply expansion_length in Hl; [|exact Hk].
  simpl in Hl. rewrite Z.mul_0_r, Z.mul_0_l in Hl.
  destruct l; [reflexivity | discriminate].
Qed.

Lemma expansion_of_no_terms_witness :
  1 <= 5 /\ (depth 5 <= 3)%nat
  /\ _recursive_expansion (lib := library) 3 [] (Lit 2) 5 1 = Ok [].
Proof.
  assert (H1 : 1 <= 5) by lia.
  assert (H2 : (depth 5 <= 3)%nat) by (vm_compute; lia).
  refine (conj H1 (conj H2 _)).
  exact (expansion_of_no_terms arith library 3%nat (Lit 2) 5 1 H1 H2).
Defined.



Section Blocks.

Context {FA : FloatArith} {lib : OperatorLibrary FA}.

Implicit Types (op_list : list op) (evo_time : scalar) (k reps : Z).


Lemma even_half_exponent (k : Z) : Z.even k = true -> (k - 1) / 2 = k / 2 - 1.
Proof.
  intros Hev. apply Z.even_spec in Hev. destruct Hev as [m ->].
  replace (2 * m - 1) with (1 + (m - 1) * 2) by lia.
  replace (2 * m) with (0 + m * 2) by lia.
  rewrite !Z.div_add by lia. reflexivity.
Qed.


End Blocks.





(** ** The expansion over the real numbers *)

Section RealConsistency.

Variable G : Type.
Variable phi : G -> R.

Lemma total_app (l1 l2 : list (G * R)) :
  RealOps.total G phi (l1 ++ l2)
  = (RealOps.total G phi l1 + RealOps.total G phi l2)%R.
Proof.
  induction l1 as [|o l1 IH]; simpl; [ring|]. rewrite IH. ring.
Qed.

Lemma total_rev (l : list (G * R)) :
  RealOps.total G phi (rev l) = RealOps.total G phi l.
Proof.
  induction l as [|o l IH]; simpl; [reflexivity|].
  rewrite total_app, IH. simpl. ring.
Qed.

Lemma total_scaled (l : list (G * R)) (x : R) :
  RealOps.total G phi (map (fun o => (fst o, (snd o * x)%R)) l)
  = (RealOps.total G phi l * x)%R.
Proof.
  induction l as [|o l IH]; simpl; [ring|]. rewrite IH. ring.
Qed.

Lemma expansion_total_coefficient fuel :
  forall (op_list : list (G * R)) (evo_time : R) (k reps : Z) (l : list (G * R)),
    IZR reps <> 0%R ->
    _recursive_expansion (lib := RealOps.library G) fuel op_list evo_time k reps
    = Ok l ->
    RealOps.total G phi l
    = (RealOps.total G phi op_list * evo_time / IZR reps)%R.
Proof.
  induction fuel as [|fuel IH]; intros op_list evo_time k reps l Hr H.
  - discriminate.
  - destruct (Z.eq_dec k 1) as [->|N1].
    { rewrite expansion_1 in H. injection H as <-.
      etransitivity; [apply total_scaled|]. unfold Rdiv. ring. }
    destruct (Z.eq_dec k 2) as [->|N2].
    { rewrite expansion_2 in H.
      match type of H with
      | bind ?c _ = _ => destruct c as [h|e] eqn:Hh; [|discriminate]
      end.
      injection H as <-.
      apply IH in Hh; [|exact Hr].
      rewrite total_app, total_rev, Hh. simpl. field. exact Hr. }
    rewrite expansion_step in H by assumption.
    generalize dependent (p_k (FA := RealArith.arith) k). intros p H.
    match type of H with
    | bind ?c _ = _ => destruct c as [s|e] eqn:Hs; [|discriminate]
    end.
    simpl in H.
    match type of H with
    | bind ?c _ = _ => destruct c as [m|e] eqn:Hm; [|discriminate]
    end.
    injection H as <-.
    apply IH in Hs; [|exact Hr]. apply IH in Hm; [|exact Hr].
    rewrite list_mul_2, !total_app, Hs, Hm. simpl. field. exact Hr.
Qed.

End RealConsistency.

(** X6.  Read over the real numbers, a slice is consistent at every order
    k >= 1: for each weighting of the generators, the coefficients of the
    returned factors add up to the weights of the input terms times
    evo_time / reps, so each generator is evolved for evo_time / reps in
    total whatever p_k is. *)
Theorem real_coefficients_add_up :
  forall (G : Type) (phi : G -> R) (fuel : nat) (op_list : list (G * R))
         (evo_time : R) (k reps : Z),
    1 <= k -> 1 <= reps -> (depth k <= fuel)%nat ->
    exists l : list (G * R),
      _recursive_expansion (lib := RealOps.library G) fuel op_list evo_time k reps
      = Ok l
      /\ RealOps.total G phi l
         = (RealOps.total G phi op_list * evo_time / IZR reps)%R.
Proof.
  intros G phi fuel op_list evo_time k reps Hk Hr Hd.
  destruct (expansion_total (lib := RealOps.library G) fuel op_list evo_time k reps
              Hk Hd) as [l Hl].
  exists l. split; [exact Hl|].
  eapply expansion_total_coefficient; [|exact Hl].
  apply not_0_IZR. lia.
Qed.

Lemma real_coefficients_add_up_witness :
  1 <= 4 /\ 1 <= 2 /\ (depth 4 <= 3)%nat
  /\ exists l : list (Pauli * R),
       _recursive_expansion (lib := RealOps.library Pauli) 3
         [(PauliX, 1%R); (PauliZ, 3%R)] 2%R 4 2 = Ok l
       /\ RealOps.total Pauli (fun g => match g with PauliX => 1%R | _ => 0%R end) l
          = (RealOps.total Pauli (fun g => match g with PauliX => 1%R | _ => 0%R end)
               [(PauliX, 1%R); (PauliZ, 3%R)] * 2 / IZR 2)%R.
Proof.
  assert (H1 : 1 <= 4) by lia.
  assert (H2 : 1 <= 2) by lia.
  assert (H3 : (depth 4 <= 3)%nat) by (vm_compute; lia).
  refine (conj H1 (conj H2 (conj H3 _))).
  exact (real_coefficients_add_up Pauli
           (fun g => match g with PauliX => 1%R | _ => 0%R end) 3%nat
           [(PauliX, 1%R); (PauliZ, 3%R)] 2%R 4 2 H1 H2 H3).
Defined.

(** The bounds on [p_k]: for an order k >= 2 the exponent 1/(2k-1) lies
    strictly between 0 and 1/2, so 4^(1/(2k-1)) lies between 1 and 2. *)
Lemma real_root_bounds (k : Z) :
  2 <= k ->
  (1 < Rpower 4 (1 / IZR (2 * k - 1)) < 2)%R.
Proof.
  intros Hk.
  assert (H3 : (3 <= IZR (2 * k - 1))%R) by (apply IZR_le; lia).
  assert (Hpos : (0 < 1 / IZR (2 * k - 1))%R).
  { unfold Rdiv. rewrite Rmult_1_l. apply Rinv_0_lt_compat. lra. }
  assert (Hhalf : (1 / IZR (2 * k - 1) < / 2)%R).
  { unfold Rdiv. rewrite Rmult_1_l. apply Rinv_lt_contravar; [|lra].
    apply Rmult_lt_0_compat; lra. }
  split.
  - assert (H4 : (1 < 4)%R) by lra.
    pose proof (Rpower_lt 4 0 (1 / IZR (2 * k - 1)) H4 Hpos) as H.
    rewrite Rpower_O in H by lra. exact H.
  - replace 2%R with (Rpower 4 (/ 2)).
    + apply Rpower_lt; [lra | exact Hhalf].
    + rewrite Rpower_sqrt by lra.
      replace 4%R with (2 * 2)%R by ring. apply sqrt_square. lra.
Qed.

(** X7.  Read over the real numbers, for every order k >= 2 the constant p_k
    lies strictly between 1/3 and 1/2, so the factor 1 - 4 p_k of the middle
    block lies strictly between -1 and -1/3: the middle block always runs
    backwards in time. *)
Theorem real_p_k_bounds :
  forall k : Z,
    2 <= k ->
    (/ 3 < p_k (FA := RealArith.arith) k < / 2)%R
    /\ (-1 < int_sub_float (FloatArith := RealArith.arith) 1
               (int_mul_float (FloatArith := RealArith.arith) 4
                  (p_k (FA := RealArith.arith) k)) < - / 3)%R.
Proof.
  intros k Hk.
  destruct (real_root_bounds k Hk) as [Hlo Hhi].
  rewrite p_k_real.
  set (root := Rpower 4 (1 / IZR (2 * k - 1))) in *.
  cbn [int_sub_float int_mul_float RealArith.arith].
  assert (Hden : (2 < 4 - root < 3)%R) by lra.
  assert (Hp : (/ 3 < 1 / (4 - root) < / 2)%R).
  { unfold Rdiv. rewrite Rmult_1_l. split.
    - apply Rinv_lt_contravar; [apply Rmult_lt_0_compat; lra | lra].
    - apply Rinv_lt_contravar; [apply Rmult_lt_0_compat; lra | lra]. }
  split; [exact Hp | lra].
Qed.

Lemma real_p_k_bounds_witness :
  2 <= 4
  /\ (/ 3 < p_k (FA := RealArith.arith) 4 < / 2)%R
  /\ (-1 < int_sub_float (FloatArith := RealArith.arith) 1
              (int_mul_float (FloatArith := RealArith.arith) 4
                 (p_k (FA := RealArith.arith) 4)) < - / 3)%R.
Proof.
  assert (H1 : 2 <= 4) by lia.
  refine (conj H1 _).
  exact (real_p_k_bounds 4 H1).
Defined.

(** ** Further properties of [convert] *)

Lemma list_mul_1 {A : Type} (l : list A) : list_mul 1 l = l.
Proof.
  unfold list_mul. simpl. apply app_nil_r.
Qed.

Lemma concat_repeat_comm {A : Type} (l : list A) (n : nat) :
  List.concat (repeat l n) ++ l = l ++ List.concat (repeat l n).
Proof.
  induction n as [|n IH]; simpl.
  - now rewrite app_nil_r.
  - now rewrite <- app_assoc, IH.
Qed.

Lemma rev_list_mul {A : Type} (n : Z) (l : list A) :
  rev l = l -> rev (list_mul n l) = list_mul n l.
Proof.
  intros Hl. unfold list_mul.
  induction (Z.to_nat n) as [|m IH]; simpl; [reflexivity|].
  rewrite rev_app_distr, IH, Hl. apply concat_repeat_comm.
Qed.

(** X8.  A [Suzuki()] built with the default arguments turns an admissible
    operand of either shape into one second-order step at the operand's
    coefficient, repeated once: the reversed then the forward first-order list
    at half the coefficient, handed to [reduce]. *)
Theorem default_is_one_second_order_step :
  forall (FA : FloatArith) (lib : OperatorLibrary FA) (fuel : nat)
         (op_list : list op) (coeff : scalar),
    convert (S (S fuel)) (__init__ None None) (SummedOp op_list coeff)
    = Ok (reduce (ComposedOp (strang_step op_list 1 coeff)))
    /\ convert (S (S fuel)) (__init__ None None) (PauliSumOp op_list coeff)
       = Ok (reduce (ComposedOp (strang_step op_list 1 coeff))).
Proof.
  intros FA lib fuel op_list coeff.
  rewrite convert_SummedOp, convert_PauliSumOp.
  change (order (__init__ None None)) with 2.
  change (reps (__init__ None None)) with 1.
  rewrite expansion_2, expansion_1. simpl.
  unfold power. simpl. rewrite list_mul_1.
  split; reflexivity.
Qed.



(** X10.  For an admissible operand of n terms, an even order k >= 2 and
    reps >= 1, the sequence that [convert] hands to [reduce] (the slice
    repeated reps times) is itself a palindrome and has
    reps * 2 * n * 5^(k/2 - 1) factors. *)
Theorem convert_even_order_symmetric :
  forall (FA : FloatArith) (lib : OperatorLibrary FA) (fuel : nat)
         (op_list : list op) (coeff : scalar) (k reps : Z)
         (operator : OperatorBase),
    operator = SummedOp op_list coeff \/ operator = PauliSumOp op_list coeff ->
    Z.even k = true -> 2 <= k -> 1 <= reps -> (depth k <= fuel)%nat ->
    exists full : ComposedSequence PrimitiveOp,
      convert fuel {| reps := reps; order := k |} operator = Ok (reduce full)
      /\ rev (oplist full) = oplist full
      /\ Z.of_nat (length (oplist full))
         = reps * (2 * Z.of_nat (length op_list) * 5 ^ (k / 2 - 1)).
Proof.
  intros FA lib fuel op_list coeff k reps operator Hop Hev Hk Hr Hd.
  destruct (expansion_total fuel op_list coeff k reps) as [l Hl];
    [lia | exact Hd |].
  exists (power (ComposedOp l) reps). split; [|split].
  - destruct Hop as [-> | ->];
      [rewrite convert_SummedOp | rewrite convert_PauliSumOp];
      simpl; rewrite Hl; reflexivity.
  - simpl. apply rev_list_mul.
    eapply expansion_palindrome; eassumption.
  - simpl. rewrite list_mul_nonneg by lia.
    apply expansion_length in Hl; [|lia].
    rewrite Hev, even_half_exponent in Hl by exact Hev.
    rewrite Nat2Z.inj_mul, Z2Nat.id, Hl by lia. reflexivity.
Qed.

Lemma convert_even_order_symmetric_witness :
  (SummedOp (lib := library) [X1; Z1] (Lit 2) = SummedOp [X1; Z1] (Lit 2)
   \/ SummedOp (lib := library) [X1; Z1] (Lit 2) = PauliSumOp [X1; Z1] (Lit 2))
  /\ Z.even 4 = true /\ 2 <= 4 /\ 1 <= 3 /\ (depth 4 <= 3)%nat
  /\ exists full : ComposedSequence factor,
       convert (lib := library) 3 {| reps := 3; order := 4 |}
         (SummedOp [X1; Z1] (Lit 2)) = Ok (reduce full)
       /\ rev (oplist full) = oplist full
       /\ Z.of_nat (length (oplist full))
          = 3 * (2 * Z.of_nat (length [X1; Z1]) * 5 ^ (4 / 2 - 1)).
Proof.
  assert (H0 : SummedOp (lib := library) [X1; Z1] (Lit 2) = SummedOp [X1; Z1] (Lit 2)
               \/ SummedOp (lib := library) [X1; Z1] (Lit 2)
                  = PauliSumOp [X1; Z1] (Lit 2)) by (left; reflexivity).
  assert (H1 : Z.even 4 = true) by reflexivity.
  assert (H2 : 2 <= 4) by lia.
  assert (H3 : 1 <= 3) by lia.
  assert (H4 : (depth 4 <= 3)%nat) by (vm_compute; lia).
  refine (conj H0 (conj H1 (conj H2 (conj H3 (conj H4 _))))).
  exact (convert_even_order_symmetric arith library 3%nat [X1; Z1] (Lit 2) 4 3
           (SummedOp [X1; Z1] (Lit 2)) H0 H1 H2 H3 H4).
Defined.
